(** * Wasender SDK: webhook utilities ([src/webhook.ts])

    A shallow embedding of the two run-time functions of the webhook
    module, [verifyWasenderWebhookSignature] and [dispatchWebhookEvent],
    over a small model of the JavaScript values they inspect, followed by
    the properties the specification states about them.

    TypeScript types are erased at run time, so the embedding follows the
    run-time behaviour: [raw as X] is the identity, [!x] is ToBoolean,
    [a === b] is strict equality, and [x.p] is a property read, which
    throws a TypeError on [undefined] and [null].

    Values are modelled as trees.  Where a property is about two calls,
    [ByReference] runs the dispatcher over a store of objects handed
    around by reference, and is shown to agree with the one on trees. *)

From Stdlib Require Import String List Bool ZArith Lia.
From Stdlib Require Import Floats.SpecFloat.
Import ListNotations.
Local Open Scope string_scope.

(** ** JavaScript values *)

(** Primitive values.  A number is an IEEE 754 value ([spec_float]): the
    sign of zero, the infinities and NaN are all told apart, as ToBoolean
    and the equality algorithms need.  A string is kept as its sequence of
    bytes; only emptiness and equality of strings are used here. *)
Inductive Primitive : Type :=
| PUndefined
| PNull
| PBool (b : bool)
| PNumber (n : spec_float)
| PString (s : string).

(** The values a webhook body can decode to: primitives, arrays, and plain
    objects holding data properties in insertion order.  Accessor
    properties, proxies and functions do not come out of a JSON decoder
    and are not part of the model. *)
Unset Elimination Schemes.
Inductive JsValue : Type :=
| JPrim (p : Primitive)
| JArray (elems : list JsValue)
| JObject (props : list (string * JsValue)).
Set Elimination Schemes.

Definition undefined : JsValue := JPrim PUndefined.
Definition null : JsValue := JPrim PNull.
Definition JBool (b : bool) : JsValue := JPrim (PBool b).
Definition JNumber (n : spec_float) : JsValue := JPrim (PNumber n).
Definition JString (s : string) : JsValue := JPrim (PString s).

(** The number literal of a positive integer: its binary64 value, with 53
    bits of precision and exponents below 1024. *)
Definition number_of_pos (p : positive) : spec_float :=
  binary_normalize 53 1024 (Zpos p) 0 false.

(** Induction over values with the hypothesis available for every element
    of an array and every property value of an object. *)
Section JsValueInduction.
Variable P : JsValue -> Prop.
Hypothesis Hprim : forall p, P (JPrim p).
Hypothesis Harray : forall elems, Forall P elems -> P (JArray elems).
Hypothesis Hobject :
  forall props, Forall (fun kv => P (snd kv)) props -> P (JObject props).

Fixpoint JsValue_ind (v : JsValue) : P v :=
  match v with
  | JPrim p => Hprim p
  | JArray elems =>
      Harray elems
        ((fix all (l : list JsValue) : Forall P l :=
            match l with
            | [] => Forall_nil P
            | x :: l' => Forall_cons x (JsValue_ind x) (all l')
            end) elems)
  | JObject props =>
      Hobject props
        ((fix all (l : list (string * JsValue))
            : Forall (fun kv => P (snd kv)) l :=
            match l with
            | [] => Forall_nil _
            | kv :: l' => Forall_cons kv (JsValue_ind (snd kv)) (all l')
            end) props)
  end.
End JsValueInduction.

(** ** Abstract operations of the language *)

(** [typeof v]. *)
Definition typeof (v : JsValue) : string :=
  match v with
  | JPrim PUndefined => "undefined"
  | JPrim PNull => "object"
  | JPrim (PBool _) => "boolean"
  | JPrim (PNumber _) => "number"
  | JPrim (PString _) => "string"
  | JArray _ | JObject _ => "object"
  end.

(** ToBoolean on primitives: [undefined], [null], [false], [+0], [-0],
    [NaN] and the empty string are falsy. *)
Definition prim_truthy (p : Primitive) : bool :=
  match p with
  | PUndefined | PNull => false
  | PBool b => b
  | PNumber (S754_zero _) | PNumber S754_nan => false
  | PNumber _ => true
  | PString s => negb (s =? "")
  end.

(** ToBoolean: every array and object is truthy. *)
Definition ToBoolean (v : JsValue) : bool :=
  match v with
  | JPrim p => prim_truthy p
  | JArray _ | JObject _ => true
  end.

(** [a === b] on primitives: no coercion; [NaN] differs from itself and
    the two zeros are equal ([SFeqb]). *)
Definition prim_strict_equals (a b : Primitive) : bool :=
  match a, b with
  | PUndefined, PUndefined => true
  | PNull, PNull => true
  | PBool x, PBool y => Bool.eqb x y
  | PNumber x, PNumber y => SFeqb x y
  | PString x, PString y => x =? y
  | _, _ => false
  end.

(** [v === p] for a primitive [p]: an array or object is never strictly
    equal to a primitive. *)
Definition strict_equals_prim (v : JsValue) (p : Primitive) : bool :=
  match v with
  | JPrim q => prim_strict_equals q p
  | JArray _ | JObject _ => false
  end.

(** Own data property [k] of a property list, if any. *)
Fixpoint own_lookup (k : string) (props : list (string * JsValue))
  : option JsValue :=
  match props with
  | [] => None
  | (k', v) :: rest => if k =? k' then Some v else own_lookup k rest
  end.

Definition has_own_property (k : string) (props : list (string * JsValue))
  : bool :=
  match own_lookup k props with Some _ => true | None => false end.

(** Own property [k] of a value; [None] for anything but an object that
    holds it. *)
Definition own_property (v : JsValue) (k : string) : option JsValue :=
  match v with
  | JObject props => own_lookup k props
  | _ => None
  end.

(** ** Completions *)

Inductive JsError : Type := TypeError.

(** The outcome of evaluating an expression: a value or a thrown error. *)
Inductive Completion (A : Type) : Type :=
| Normal (a : A)
| Throw (e : JsError).
Arguments Normal {A} a.
Arguments Throw {A} e.

Definition bind {A B} (c : Completion A) (k : A -> Completion B)
  : Completion B :=
  match c with
  | Normal a => k a
  | Throw e => Throw e
  end.

Notation "x <- c ;; k" := (bind c (fun x => k))
  (at level 61, c at next level, right associativity).

(** [a || b] used as a condition: [b] is evaluated only when [a] is false. *)
Definition or_else (a b : Completion bool) : Completion bool :=
  x <- a ;; if x then Normal true else b.

Infix "|||" := or_else (at level 50, left associativity).

(** The property read [v.k].  It throws on [undefined] and [null].  On an
    object it yields the own property or [undefined].  Members inherited
    from the built-in prototypes, and the index and [length] keys of arrays
    and strings, are outside the model: this module reads only [event],
    [timestamp], [data] and [sessionId], and none of them is such a key. *)
Definition Get (v : JsValue) (k : string) : Completion JsValue :=
  match v with
  | JPrim PUndefined | JPrim PNull => Throw TypeError
  | JPrim _ | JArray _ => Normal undefined
  | JObject props =>
      Normal (match own_lookup k props with
              | Some x => x
              | None => undefined
              end)
  end.

(** A chain of property reads [v.k1.k2...]. *)
Fixpoint GetPath (v : JsValue) (path : list string) : Completion JsValue :=
  match path with
  | [] => Normal v
  | k :: rest => x <- Get v k ;; GetPath x rest
  end.

(** [switch (scrutinee) { case label: body ... default: ... }] over string
    labels, each body ending in [return].  Labels are tried in order with
    [===]; labels that fall through to a shared body are listed with that
    body. *)
Fixpoint switch {A : Type} (scrutinee : JsValue) (cases : list (string * A))
  (default : A) : A :=
  match cases with
  | [] => default
  | (label, body) :: rest =>
      if strict_equals_prim scrutinee (PString label) then body
      else switch scrutinee rest default
  end.

(** ** The webhook module *)

Definition WEBHOOK_SIGNATURE_HEADER : string := "x-webhook-signature".

(** [verifyWasenderWebhookSignature(requestSignature, configuredSecret)].
    The declared parameter types are [string | undefined | null] and
    [string]; both are primitives, and the model accepts any primitive in
    either position. *)
Definition verifyWasenderWebhookSignature
  (requestSignature configuredSecret : Primitive) : bool :=
  if negb (prim_truthy requestSignature) || negb (prim_truthy configuredSecret)
  then false
  else prim_strict_equals requestSignature configuredSecret.

(** Known webhook event types. *)
Module WasenderWebhookEventType.
Definition ChatsUpsert := "chats.upsert".
Definition ChatsUpdate := "chats.update".
Definition ChatsDelete := "chats.delete".
Definition GroupsUpsert := "groups.upsert".
Definition GroupsUpdate := "groups.update".
Definition GroupParticipantsUpdate := "group-participants.update".
Definition ContactsUpsert := "contacts.upsert".
Definition ContactsUpdate := "contacts.update".
Definition MessagesUpsert := "messages.upsert".
Definition MessagesUpdate := "messages.update".
Definition MessagesDelete := "messages.delete".
Definition MessagesReaction := "messages.reaction".
Definition CallReceived := "call.received".
Definition MessagesPersonalReceived := "messages-personal.received".
Definition MessagesNewsletterReceived := "messages-newsletter.received".
Definition MessagesGroupReceived := "messages-group.received".
Definition MessagesReceived := "messages.received".
Definition PollResults := "poll.results".
Definition MessageReceiptUpdate := "message-receipt.update".
Definition MessageSent := "message.sent".
Definition SessionStatus := "session.status".
Definition QrCodeUpdated := "qrcode.updated".

(** The values of the constant object, in declaration order. *)
Definition values : list string :=
  [ ChatsUpsert; ChatsUpdate; ChatsDelete;
    GroupsUpsert; GroupsUpdate; GroupParticipantsUpdate;
    ContactsUpsert; ContactsUpdate;
    MessagesUpsert; MessagesUpdate; MessagesDelete; MessagesReaction;
    CallReceived; MessagesPersonalReceived; MessagesNewsletterReceived;
    MessagesGroupReceived; MessagesReceived; PollResults;
    MessageReceiptUpdate;
    MessageSent; SessionStatus; QrCodeUpdated ].
End WasenderWebhookEventType.

(** The object literal [{ event: "unknown", data: raw, raw }]. *)
Definition unknown_fallback (raw : JsValue) : JsValue :=
  JObject [ ("event", JString "unknown"); ("data", raw); ("raw", raw) ].

(** The object literal of the [default] branch. *)
Definition fallback_event (ev timestamp data sessionId raw : JsValue)
  : JsValue :=
  JObject [ ("event", ev); ("timestamp", timestamp); ("data", data);
            ("sessionId", sessionId); ("raw", raw) ].

(** The [case] labels of [dispatchWebhookEvent], in source order, each with
    the body it reaches. *)
Definition dispatch_cases {A : Type} (body : A) : list (string * A) :=
  let case (label : string) := (label, body) in
  [ case WasenderWebhookEventType.MessagesUpsert;
    case WasenderWebhookEventType.MessagesUpdate;
    case WasenderWebhookEventType.MessagesDelete;
    case WasenderWebhookEventType.MessagesReaction;
    case WasenderWebhookEventType.MessageReceiptUpdate;
    case WasenderWebhookEventType.MessageSent;
    case WasenderWebhookEventType.SessionStatus;
    case WasenderWebhookEventType.QrCodeUpdated;
    case WasenderWebhookEventType.CallReceived;
    case WasenderWebhookEventType.MessagesPersonalReceived;
    case WasenderWebhookEventType.MessagesNewsletterReceived;
    case WasenderWebhookEventType.MessagesGroupReceived;
    case WasenderWebhookEventType.MessagesReceived;
    case WasenderWebhookEventType.PollResults;
    case WasenderWebhookEventType.ChatsUpsert;
    case WasenderWebhookEventType.ChatsUpdate;
    case WasenderWebhookEventType.ChatsDelete;
    case WasenderWebhookEventType.GroupsUpsert;
    case WasenderWebhookEventType.GroupsUpdate;
    case WasenderWebhookEventType.GroupParticipantsUpdate;
    case WasenderWebhookEventType.ContactsUpsert;
    case WasenderWebhookEventType.ContactsUpdate ].

(** [dispatchWebhookEvent(raw)].  Every matching [case] returns [raw]
    itself (the casts are erased); the [default] branch builds a new
    object from four property reads. *)
Definition dispatchWebhookEvent (raw : JsValue) : Completion JsValue :=
  malformed <-
    (Normal (negb (ToBoolean raw))
     ||| Normal (negb (typeof raw =? "object"))
     ||| (event <- Get raw "event" ;; Normal (negb (ToBoolean event)))) ;;
  if malformed then Normal (unknown_fallback raw)
  else
    ev <- Get raw "event" ;;
    switch ev (dispatch_cases (Normal raw))
      (timestamp <- Get raw "timestamp" ;;
       data <- Get raw "data" ;;
       sessionId <- Get raw "sessionId" ;;
       Normal (fallback_event ev timestamp data sessionId raw)).

(** ** Structural equality of results *)

(** SameValue on primitives ([Object.is]): like [===] except that [NaN]
    equals itself and the two zeros differ. *)
Definition spec_float_same (x y : spec_float) : bool :=
  match x, y with
  | S754_zero s, S754_zero t => Bool.eqb s t
  | S754_infinity s, S754_infinity t => Bool.eqb s t
  | S754_nan, S754_nan => true
  | S754_finite s m e, S754_finite t n f =>
      Bool.eqb s t && Pos.eqb m n && Z.eqb e f
  | _, _ => false
  end.

Definition prim_same_value (a b : Primitive) : bool :=
  match a, b with
  | PUndefined, PUndefined => true
  | PNull, PNull => true
  | PBool x, PBool y => Bool.eqb x y
  | PNumber x, PNumber y => spec_float_same x y
  | PString x, PString y => x =? y
  | _, _ => false
  end.

Definition mem_string (k : string) (l : list string) : bool :=
  existsb (String.eqb k) l.

(** Deep equality as test frameworks check it strictly: primitives by
    SameValue, arrays element by element, objects by having the same own
    keys with deeply equal values, whatever the order of the keys.  An
    entry of a property list whose key occurs earlier in the list is
    shadowed, hence not a property, and is skipped. *)
Section DeepEqual.
Variable equal : JsValue -> JsValue -> bool.

Fixpoint elements_equal (xs ys : list JsValue) {struct xs} : bool :=
  match xs, ys with
  | [], [] => true
  | x :: xs', y :: ys' => equal x y && elements_equal xs' ys'
  | _, _ => false
  end.

(** Every property among [l] that no key of [seen] shadows has a deeply
    equal counterpart in [pb]. *)
Fixpoint properties_equal (pb : list (string * JsValue))
  (seen : list string) (l : list (string * JsValue)) {struct l} : bool :=
  match l with
  | [] => true
  | (k, v) :: l' =>
      (if mem_string k seen then true
       else match own_lookup k pb with
            | Some w => equal v w
            | None => false
            end)
      && properties_equal pb (k :: seen) l'
  end.
End DeepEqual.

Fixpoint deep_equal (a b : JsValue) {struct a} : bool :=
  match a, b with
  | JPrim p, JPrim q => prim_same_value p q
  | JArray xs, JArray ys => elements_equal deep_equal xs ys
  | JObject pa, JObject pb =>
      properties_equal deep_equal pb [] pa
      && forallb (fun kv => has_own_property (fst kv) pa) pb
  | _, _ => false
  end.

(** ** Test inputs of [tests/webhook-new-events.test.ts] *)

Module Scenario.
Definition timestamp : JsValue := JNumber (number_of_pos 1697640000).

Definition call_received : JsValue :=
  JObject
    [ ("event", JString "call.received");
      ("timestamp", timestamp);
      ("data",
        JObject
          [ ("call",
              JObject
                [ ("id", JString "call123");
                  ("from", JString "12345@s.whatsapp.net");
                  ("date", JString "2025-10-17T12:00:00Z");
                  ("isGroup", JBool false) ]) ]);
      ("sessionId", JString "session1") ].

(** The same event as the specification writes it, without [timestamp]
    and [sessionId]. *)
Definition call_received_minimal : JsValue :=
  JObject
    [ ("event", JString "call.received");
      ("data",
        JObject
          [ ("call",
              JObject
                [ ("id", JString "call123");
                  ("from", JString "12345@s.whatsapp.net");
                  ("date", JString "2025-10-17T12:00:00Z");
                  ("isGroup", JBool false) ]) ]) ].

Definition group_received : JsValue :=
  JObject
    [ ("event", JString "messages-group.received");
      ("timestamp", timestamp);
      ("data",
        JObject
          [ ("key",
              JObject
                [ ("id", JString "msg3");
                  ("fromMe", JBool false);
                  ("remoteJid", JString "99999-161@g.us");
                  ("participant", JString "12345@s.whatsapp.net") ]);
            ("message",
              JObject [ ("conversation", JString "group hello") ]) ]);
      ("sessionId", JString "session4") ].

Definition unknown_custom : JsValue :=
  JObject
    [ ("event", JString "unknown.custom.event");
      ("timestamp", timestamp);
      ("data", JObject [ ("foo", JString "bar") ]);
      ("sessionId", JString "sessionX") ].
End Scenario.

(** Inputs that exercise the guard. *)
Module Malformed.
(** [{ event: 42 }]: a truthy [event] that is not a string. *)
Definition numeric_event : JsValue :=
  JObject [ ("event", JNumber (number_of_pos 42)) ].

(** [{ event: "", timestamp: 1697640000, data: { foo: "bar" },
    sessionId: "sessionX" }]: an empty [event]. *)
Definition empty_event : JsValue :=
  JObject
    [ ("event", JString "");
      ("timestamp", Scenario.timestamp);
      ("data", JObject [ ("foo", JString "bar") ]);
      ("sessionId", JString "sessionX") ].
End Malformed.


(** ** Input classes *)

(** [raw] is an Object in the language's sense (a plain object or an
    array): it passes [!raw || typeof raw !== "object"]. *)
Definition is_object (raw : JsValue) : bool :=
  ToBoolean raw && (typeof raw =? "object").

(** [raw] holds a non-empty string under [event]. *)
Definition has_nonempty_string_event (raw : JsValue) : bool :=
  match own_property raw "event" with
  | Some (JPrim (PString s)) => negb (s =? "")
  | _ => false
  end.

(** The inputs the guard of [dispatchWebhookEvent] stops: not an Object,
    or an Object whose [event] reads as a falsy value ([undefined] when
    the property is absent). *)
Definition malformed_input (raw : JsValue) : Prop :=
  is_object raw = false \/
  exists ev, Get raw "event" = Normal ev /\ ToBoolean ev = false.

(** An argument of the signature check that is absent or empty. *)
Definition absent_or_empty (p : Primitive) : Prop :=
  p = PUndefined \/ p = PNull \/ p = PString "".

(** The labels of the [switch], in source order. *)
Definition dispatch_labels : list string :=
  map fst (dispatch_cases tt).

(** [raw.event] reads as one of the values of
    [WasenderWebhookEventType]. *)
Definition known_event (raw : JsValue) : Prop :=
  exists name,
    In name WasenderWebhookEventType.values /\
    Get raw "event" = Normal (JString name).

(** The number of nodes of a value: every value is larger than each of its
    elements and property values. *)
Fixpoint value_size (v : JsValue) : nat :=
  match v with
  | JPrim _ => 1
  | JArray elems => S (list_sum (map value_size elems))
  | JObject props => S (list_sum (map (fun kv => value_size (snd kv)) props))
  end.

(** The own keys of the object literal of the [default] branch. *)
Definition fallback_keys : list string :=
  [ "event"; "timestamp"; "data"; "sessionId"; "raw" ].

(** ** Objects by reference

    Two calls of a function are two executions over one store.  The
    definitions below keep objects in a store and hand them around by
    reference, so that an object literal allocates, a [case] returns the
    very reference it was given, and a later call runs in the store the
    earlier one left. *)

Module ByReference.

(** A value is a primitive or a reference to an object of the store. *)
Inductive Value : Type :=
| VPrim (p : Primitive)
| VRef (l : nat).

(** A stored object: an array or a plain object with its data properties
    in insertion order. *)
Inductive Object : Type :=
| OArray (elems : list Value)
| OPlain (props : list (string * Value)).

(** The store; a reference is an index into it and allocation appends. *)
Definition Store : Type := list Object.

(** A computation reads and extends the store and may throw. *)
Definition Exec (A : Type) : Type := Store -> Completion (A * Store).

Definition ret {A : Type} (a : A) : Exec A := fun h => Normal (a, h).

Definition bind {A B : Type} (c : Exec A) (k : A -> Exec B) : Exec B :=
  fun h =>
    match c h with
    | Normal (a, h') => k a h'
    | Throw e => Throw e
    end.

Notation "x <~ c ;; k" := (bind c (fun x => k))
  (at level 61, c at next level, right associativity).

(** [a || b] used as a condition, [b] evaluated only when [a] is false. *)
Definition or_else (a b : Exec bool) : Exec bool :=
  x <~ a ;; if x then ret true else b.

Infix "<||>" := or_else (at level 50, left associativity).

Definition typeof (v : Value) : string :=
  match v with
  | VPrim p => typeof (JPrim p)
  | VRef _ => "object"
  end.

Definition ToBoolean (v : Value) : bool :=
  match v with
  | VPrim p => prim_truthy p
  | VRef _ => true
  end.

(** [v === p] for a primitive [p]; a reference never equals a primitive. *)
Definition strict_equals_prim (v : Value) (p : Primitive) : bool :=
  match v with
  | VPrim q => prim_strict_equals q p
  | VRef _ => false
  end.

Fixpoint own_lookup (k : string) (props : list (string * Value))
  : option Value :=
  match props with
  | [] => None
  | (k', v) :: rest => if k =? k' then Some v else own_lookup k rest
  end.

(** The property read [v.k], with the scope of the read on trees: it
    throws on [undefined] and [null], yields the own property of a plain
    object, and [undefined] otherwise.  The store is left as it is. *)
Definition Get (v : Value) (k : string) : Exec Value :=
  fun h =>
    match v with
    | VPrim PUndefined | VPrim PNull => Throw TypeError
    | VPrim _ => Normal (VPrim PUndefined, h)
    | VRef l =>
        match nth_error h l with
        | Some (OPlain props) =>
            Normal (match own_lookup k props with
                    | Some x => x
                    | None => VPrim PUndefined
                    end, h)
        | Some (OArray _) | None => Normal (VPrim PUndefined, h)
        end
    end.

(** An object literal: a new object at the end of the store. *)
Definition new_object (props : list (string * Value)) : Exec Value :=
  fun h => Normal (VRef (length h), (h ++ [OPlain props])%list).

Fixpoint switch {A : Type} (scrutinee : Value) (cases : list (string * A))
  (default : A) : A :=
  match cases with
  | [] => default
  | (label, body) :: rest =>
      if strict_equals_prim scrutinee (PString label) then body
      else switch scrutinee rest default
  end.

(** [dispatchWebhookEvent(raw)] over the store. *)
Definition dispatchWebhookEvent (raw : Value) : Exec Value :=
  malformed <~
    (ret (negb (ToBoolean raw))
     <||> ret (negb (typeof raw =? "object"))
     <||> (event <~ Get raw "event" ;; ret (negb (ToBoolean event)))) ;;
  if malformed then
    new_object [ ("event", VPrim (PString "unknown"));
                 ("data", raw); ("raw", raw) ]
  else
    ev <~ Get raw "event" ;;
    switch ev (dispatch_cases (ret raw))
      (timestamp <~ Get raw "timestamp" ;;
       data <~ Get raw "data" ;;
       sessionId <~ Get raw "sessionId" ;;
       new_object [ ("event", ev); ("timestamp", timestamp); ("data", data);
                    ("sessionId", sessionId); ("raw", raw) ]).

(** [map] over a list with a function that may fail. *)
Fixpoint traverse {A B : Type} (f : A -> option B) (l : list A)
  : option (list B) :=
  match l with
  | [] => Some []
  | x :: l' =>
      match f x, traverse f l' with
      | Some y, Some ys => Some (y :: ys)
      | _, _ => None
      end
  end.

(** The tree a value denotes in a store, followed through at most [depth]
    references; [None] when a reference dangles or the structure is
    deeper, as a cyclic one is at every depth. *)
Fixpoint tree_of (depth : nat) (h : Store) (v : Value) : option JsValue :=
  match v with
  | VPrim p => Some (JPrim p)
  | VRef l =>
      match depth with
      | 0 => None
      | S depth' =>
          match nth_error h l with
          | None => None
          | Some (OArray elems) =>
              option_map JArray (traverse (tree_of depth' h) elems)
          | Some (OPlain props) =>
              option_map JObject
                (traverse
                   (fun kv =>
                      option_map (pair (fst kv)) (tree_of depth' h (snd kv)))
                   props)
          end
      end
  end.

(** The store of the test input [unknown.custom.event]: its [data] object
    at reference 0 and the payload at reference 1. *)
Definition unknown_custom_store : Store :=
  [ OPlain [ ("foo", VPrim (PString "bar")) ];
    OPlain [ ("event", VPrim (PString "unknown.custom.event"));
             ("timestamp", VPrim (PNumber (number_of_pos 1697640000)));
             ("data", VRef 0);
             ("sessionId", VPrim (PString "sessionX")) ] ].

End ByReference.

(** A known event that carries a property named [raw] of its own:
    [{ event: "session.status", raw: 1 }]. *)
Definition session_status_with_raw : JsValue :=
  JObject [ ("event", JString "session.status");
            ("raw", JNumber (number_of_pos 1)) ].

(** * Properties *)

(** ** Strict equality and [switch] *)

Lemma strict_equals_string_iff (v : JsValue) (s : string) :
  strict_equals_prim v (PString s) = true <-> v = JString s.
Proof.
  destruct v as [[ | | b | n | t] | elems | props]; simpl;
    try (split; [discriminate | intros H; discriminate H]).
  rewrite String.eqb_eq. split.
  - intros ->. reflexivity.
  - intros H. injection H as ->. reflexivity.
Qed.

Lemma strict_equals_string_neq (v : JsValue) (s : string) :
  v <> JString s -> strict_equals_prim v (PString s) = false.
Proof.
  intros Hneq. destruct (strict_equals_prim v (PString s)) eqn:E; auto.
  apply strict_equals_string_iff in E. contradiction.
Qed.

Lemma switch_no_match {A : Type} (ev : JsValue) (cases : list (string * A))
  (default : A) :
  (forall label, In label (map fst cases) -> ev <> JString label) ->
  switch ev cases default = default.
Proof.
  induction cases as [| [label body] rest IH]; simpl; intros Hall.
  - reflexivity.
  - rewrite strict_equals_string_neq by (apply Hall; left; reflexivity).
    apply IH. intros l Hl. apply Hall. right. exact Hl.
Qed.

Lemma switch_match_uniform {A : Type} (name : string) (body default : A)
  (labels : list string) :
  In name labels ->
  switch (JString name) (map (fun l => (l, body)) labels) default = body.
Proof.
  induction labels as [| l rest IH]; simpl; intros Hin.
  - contradiction.
  - destruct (name =? l) eqn:E; [reflexivity |].
    destruct Hin as [-> | Hin].
    + rewrite String.eqb_refl in E. discriminate.
    + apply IH. exact Hin.
Qed.

Lemma dispatch_cases_uniform {A : Type} (body : A) :
  dispatch_cases body = map (fun l => (l, body)) dispatch_labels.
Proof. reflexivity. Qed.

Lemma dispatch_labels_values (label : string) :
  In label dispatch_labels <-> In label WasenderWebhookEventType.values.
Proof.
  assert (Hsub : forall xs ys : list string,
             forallb (fun x => mem_string x ys) xs = true ->
             forall x, In x xs -> In x ys).
  { intros xs ys H x Hx. rewrite forallb_forall in H.
    specialize (H x Hx). unfold mem_string in H.
    apply existsb_exists in H as [y [Hy E]].
    apply String.eqb_eq in E. subst. exact Hy. }
  split; apply Hsub; reflexivity.
Qed.

Lemma values_nonempty (name : string) :
  In name WasenderWebhookEventType.values -> name <> "".
Proof.
  intros Hin ->. revert Hin.
  assert (H : mem_string "" WasenderWebhookEventType.values = false)
    by reflexivity.
  intros Hin. unfold mem_string in H.
  assert (H' : existsb (String.eqb "") WasenderWebhookEventType.values = true).
  { apply existsb_exists. exists "". split; [exact Hin | reflexivity]. }
  rewrite H in H'. discriminate.
Qed.

(** ** The three outcomes of [dispatchWebhookEvent] *)

Lemma is_object_cases (raw : JsValue) :
  is_object raw = true ->
  (exists elems, raw = JArray elems) \/ (exists props, raw = JObject props).
Proof.
  destruct raw as [[ | | b | n | s] | elems | props]; simpl; intros H;
    try discriminate; eauto.
  - unfold is_object in H. simpl in H. rewrite andb_false_r in H. discriminate.
  - unfold is_object in H. simpl in H. rewrite andb_false_r in H. discriminate.
  - unfold is_object in H. simpl in H. rewrite andb_false_r in H. discriminate.
Qed.

Lemma truthy_event_is_object (raw ev : JsValue) :
  Get raw "event" = Normal ev -> ToBoolean ev = true -> is_object raw = true.
Proof.
  destruct raw as [[ | | b | n | s] | elems | props]; simpl; intros H Ht;
    try discriminate; try reflexivity;
    injection H as <-; discriminate.
Qed.

Lemma dispatch_not_object (raw : JsValue) :
  is_object raw = false ->
  dispatchWebhookEvent raw = Normal (unknown_fallback raw).
Proof.
  destruct raw as [[ | | b | n | s] | elems | props];
    unfold is_object; simpl; intros H; try discriminate; try reflexivity.
  - destruct b; reflexivity.
  - destruct n; reflexivity.
  - unfold dispatchWebhookEvent. simpl. destruct (s =? ""); reflexivity.
Qed.

Lemma dispatch_falsy_event (raw ev : JsValue) :
  Get raw "event" = Normal ev -> ToBoolean ev = false ->
  dispatchWebhookEvent raw = Normal (unknown_fallback raw).
Proof.
  intros Hget Hfalsy.
  destruct (is_object raw) eqn:Hobj; [| apply dispatch_not_object; exact Hobj].
  unfold dispatchWebhookEvent.
  destruct (is_object_cases raw Hobj) as [[elems ->] | [props ->]].
  - reflexivity.
  - simpl in Hget. injection Hget as Hev.
    unfold or_else, bind. simpl. rewrite Hev, Hfalsy. reflexivity.
Qed.

Lemma dispatch_truthy_event (raw ev : JsValue) :
  Get raw "event" = Normal ev -> ToBoolean ev = true ->
  dispatchWebhookEvent raw =
    switch ev (dispatch_cases (Normal raw))
      (timestamp <- Get raw "timestamp" ;;
       data <- Get raw "data" ;;
       sessionId <- Get raw "sessionId" ;;
       Normal (fallback_event ev timestamp data sessionId raw)).
Proof.
  intros Hget Htruthy.
  pose proof (truthy_event_is_object raw ev Hget Htruthy) as Hobj.
  destruct (is_object_cases raw Hobj) as [[elems ->] | [props ->]].
  - simpl in Hget. injection Hget as <-. discriminate.
  - simpl in Hget. injection Hget as Hev.
    unfold dispatchWebhookEvent, or_else, bind. simpl.
    rewrite Hev, Htruthy. reflexivity.
Qed.

Lemma dispatch_known_event (raw : JsValue) (name : string) :
  In name WasenderWebhookEventType.values ->
  Get raw "event" = Normal (JString name) ->
  dispatchWebhookEvent raw = Normal raw.
Proof.
  intros Hin Hget.
  assert (Htruthy : ToBoolean (JString name) = true).
  { simpl. apply values_nonempty in Hin. apply String.eqb_neq in Hin.
    rewrite Hin. reflexivity. }
  rewrite (dispatch_truthy_event raw _ Hget Htruthy).
  rewrite dispatch_cases_uniform.
  apply switch_match_uniform, dispatch_labels_values, Hin.
Qed.

Lemma dispatch_no_match (raw ev : JsValue) :
  Get raw "event" = Normal ev -> ToBoolean ev = true ->
  (forall name, In name WasenderWebhookEventType.values -> ev <> JString name) ->
  exists timestamp data sessionId,
    Get raw "timestamp" = Normal timestamp /\
    Get raw "data" = Normal data /\
    Get raw "sessionId" = Normal sessionId /\
    dispatchWebhookEvent raw =
      Normal (fallback_event ev timestamp data sessionId raw).
Proof.
  intros Hget Htruthy Hnone.
  rewrite (dispatch_truthy_event raw ev Hget Htruthy).
  rewrite switch_no_match.
  2:{ intros label Hl. apply Hnone, dispatch_labels_values.
      rewrite dispatch_cases_uniform in Hl. unfold dispatch_labels.
      rewrite dispatch_cases_uniform. exact Hl. }
  pose proof (truthy_event_is_object raw ev Hget Htruthy) as Hobj.
  destruct (is_object_cases raw Hobj) as [[elems ->] | [props ->]];
    simpl; eauto 10.
Qed.

(** ** Known events *)

(** C1: the constant object lists 22 distinct event names, and for each of
    them an input whose [event] is that name is dispatched to an event
    whose [event] is the name and whose [timestamp], [sessionId] and [data]
    read exactly as they do on the input. *)
Theorem dispatch_known_event_roundtrip :
  length WasenderWebhookEventType.values = 22 /\
  NoDup WasenderWebhookEventType.values /\
  forall (name : string) (raw : JsValue),
    In name WasenderWebhookEventType.values ->
    Get raw "event" = Normal (JString name) ->
    exists e,
      dispatchWebhookEvent raw = Normal e /\
      Get e "event" = Normal (JString name) /\
      Get e "timestamp" = Get raw "timestamp" /\
      Get e "sessionId" = Get raw "sessionId" /\
      Get e "data" = Get raw "data".
Proof.
  split; [reflexivity |]. split.
  - unfold WasenderWebhookEventType.values.
    repeat (constructor; [simpl; intuition discriminate |]). constructor.
  - intros name raw Hin Hget. exists raw.
    rewrite (dispatch_known_event raw name Hin Hget). auto.
Qed.

Lemma dispatch_known_event_roundtrip_witness :
  exists e,
    dispatchWebhookEvent Scenario.call_received = Normal e /\
    Get e "event" = Normal (JString "call.received") /\
    Get e "timestamp" = Get Scenario.call_received "timestamp" /\
    Get e "sessionId" = Get Scenario.call_received "sessionId" /\
    Get e "data" = Get Scenario.call_received "data".
Proof.
  apply (proj2 (proj2 dispatch_known_event_roundtrip) "call.received").
  - unfold WasenderWebhookEventType.values. simpl. tauto.
  - reflexivity.
Defined.

(** C9, as the code has it: for an input whose [event] is one of the known
    names the result is the input value itself: it has exactly the own
    properties of the input with the same values, so nothing is lost and
    nothing is added; the dispatcher attaches no [raw], so the result has
    a [raw] property only when the input has one, and an input without it
    yields a result without it. *)
Theorem dispatch_known_event_identity (name : string) (raw : JsValue) :
  In name WasenderWebhookEventType.values ->
  Get raw "event" = Normal (JString name) ->
  exists e,
    dispatchWebhookEvent raw = Normal e /\
    e = raw /\
    (forall k, own_property e k = own_property raw k) /\
    (own_property raw "raw" = None -> own_property e "raw" = None).
Proof.
  intros Hin Hget. exists raw.
  rewrite (dispatch_known_event raw name Hin Hget). auto.
Qed.

Lemma dispatch_known_event_identity_witness :
  exists e,
    dispatchWebhookEvent Scenario.group_received = Normal e /\
    e = Scenario.group_received /\
    (forall k, own_property e k = own_property Scenario.group_received k) /\
    (own_property Scenario.group_received "raw" = None ->
     own_property e "raw" = None).
Proof.
  apply (dispatch_known_event_identity "messages-group.received").
  - unfold WasenderWebhookEventType.values. simpl. tauto.
  - reflexivity.
Defined.

(** C9, as stated, fails: [{ event: "session.status", raw: 1 }] has a known
    [event], and the result, being the input, carries its [raw] property.
    So it is not the case that every result of a known event is without a
    [raw] property. *)
Lemma known_event_result_carries_raw :
  (In "session.status" WasenderWebhookEventType.values /\
   Get session_status_with_raw "event" = Normal (JString "session.status") /\
   dispatchWebhookEvent session_status_with_raw
     = Normal session_status_with_raw /\
   own_property session_status_with_raw "raw"
     = Some (JNumber (number_of_pos 1))) /\
  ~ (forall (name : string) (raw : JsValue),
        In name WasenderWebhookEventType.values ->
        Get raw "event" = Normal (JString name) ->
        exists e,
          dispatchWebhookEvent raw = Normal e /\
          e = raw /\
          own_property e "raw" = None).
Proof.
  assert (Hin : In "session.status" WasenderWebhookEventType.values)
    by (unfold WasenderWebhookEventType.values; simpl; tauto).
  split.
  - repeat split; try reflexivity. exact Hin.
  - intros Hclaim.
    destruct (Hclaim "session.status" session_status_with_raw Hin eq_refl)
      as (e & _ & -> & Hraw).
    discriminate Hraw.
Qed.

(** ** Unrecognized events *)

(** C2: an input whose [event] is a non-empty string outside the 22 known
    names is dispatched to a fallback event whose [event] is that very
    string, whose [timestamp], [sessionId] and [data] read as they do on
    the input, and whose [raw] is the whole input. *)
Theorem dispatch_unrecognized_event (name : string) (raw : JsValue) :
  Get raw "event" = Normal (JString name) ->
  name <> "" ->
  ~ In name WasenderWebhookEventType.values ->
  exists e,
    dispatchWebhookEvent raw = Normal e /\
    Get e "event" = Normal (JString name) /\
    Get e "timestamp" = Get raw "timestamp" /\
    Get e "sessionId" = Get raw "sessionId" /\
    Get e "data" = Get raw "data" /\
    own_property e "raw" = Some raw.
Proof.
  intros Hget Hne Hnot.
  destruct (dispatch_no_match raw (JString name) Hget)
    as (ts & data & sid & Hts & Hdata & Hsid & Hd).
  - simpl. apply String.eqb_neq in Hne. rewrite Hne. reflexivity.
  - intros n Hn Heq. injection Heq as <-. contradiction.
  - exists (fallback_event (JString name) ts data sid raw).
    rewrite Hd, Hts, Hdata, Hsid. simpl. auto 10.
Qed.

Lemma dispatch_unrecognized_event_witness :
  exists e,
    dispatchWebhookEvent Scenario.unknown_custom = Normal e /\
    Get e "event" = Normal (JString "unknown.custom.event") /\
    Get e "timestamp" = Get Scenario.unknown_custom "timestamp" /\
    Get e "sessionId" = Get Scenario.unknown_custom "sessionId" /\
    Get e "data" = Get Scenario.unknown_custom "data" /\
    own_property e "raw" = Some Scenario.unknown_custom.
Proof.
  apply dispatch_unrecognized_event.
  - reflexivity.
  - discriminate.
  - unfold WasenderWebhookEventType.values. simpl. intuition discriminate.
Defined.

(** ** Malformed input *)

Lemma dispatch_malformed (raw : JsValue) :
  malformed_input raw ->
  dispatchWebhookEvent raw = Normal (unknown_fallback raw).
Proof.
  intros [Hobj | [ev [Hget Hfalsy]]].
  - apply dispatch_not_object, Hobj.
  - apply (dispatch_falsy_event raw ev Hget Hfalsy).
Qed.

Lemma missing_event_malformed (props : list (string * JsValue)) :
  own_lookup "event" props = None -> malformed_input (JObject props).
Proof.
  intros Hnone. right. exists undefined. simpl. rewrite Hnone. auto.
Qed.

(** C3, as the code has it: an input that is not an object (null, undefined
    or another primitive), or whose [event] is absent or falsy, is
    dispatched to a fallback event whose [event] is the sentinel
    ["unknown"], whose [data] is the whole input and whose [raw] is the
    whole input. *)
Theorem dispatch_malformed_unknown (raw : JsValue) :
  malformed_input raw ->
  exists e,
    dispatchWebhookEvent raw = Normal e /\
    Get e "event" = Normal (JString "unknown") /\
    Get e "data" = Normal raw /\
    own_property e "raw" = Some raw.
Proof.
  intros Hmal. exists (unknown_fallback raw).
  rewrite (dispatch_malformed raw Hmal). simpl. auto.
Qed.

Lemma dispatch_malformed_unknown_witness :
  exists e,
    dispatchWebhookEvent null = Normal e /\
    Get e "event" = Normal (JString "unknown") /\
    Get e "data" = Normal null /\
    own_property e "raw" = Some null.
Proof.
  apply dispatch_malformed_unknown. left. reflexivity.
Defined.

(** C3, as stated, fails: [{ event: 42 }] is an object with a non-string
    [event], hence without a non-empty string [event], yet the result's
    [event] is [42], not ["unknown"], and its [data] is [undefined], not
    the input.  So not every input without a non-empty string [event] is
    dispatched to the sentinel. *)
Lemma dispatch_non_string_event_not_unknown :
  (has_nonempty_string_event Malformed.numeric_event = false /\
   exists e,
     dispatchWebhookEvent Malformed.numeric_event = Normal e /\
     Get e "event" = Normal (JNumber (number_of_pos 42)) /\
     Get e "event" <> Normal (JString "unknown") /\
     Get e "data" = Normal undefined /\
     Get e "data" <> Normal Malformed.numeric_event) /\
  ~ (forall raw : JsValue,
        has_nonempty_string_event raw = false ->
        exists e,
          dispatchWebhookEvent raw = Normal e /\
          Get e "event" = Normal (JString "unknown") /\
          Get e "data" = Normal raw /\
          own_property e "raw" = Some raw).
Proof.
  split.
  - split; [reflexivity |].
    eexists. split; [reflexivity |]. simpl.
    repeat split; discriminate.
  - intros Hclaim.
    destruct (Hclaim Malformed.numeric_event eq_refl) as (e & Hd & Hev & _).
    assert (He : e = fallback_event (JNumber (number_of_pos 42)) undefined
                       undefined undefined Malformed.numeric_event).
    { assert (Hrun : dispatchWebhookEvent Malformed.numeric_event
                     = Normal (fallback_event (JNumber (number_of_pos 42))
                                 undefined undefined undefined
                                 Malformed.numeric_event)) by reflexivity.
      rewrite Hrun in Hd. injection Hd as <-. reflexivity. }
    subst e. discriminate Hev.
Qed.

(** C10: in the malformed case the fallback event has the own properties
    [event], [data] and [raw] and no other, so neither [timestamp] nor
    [sessionId], whatever the input holds; its [data] is the whole input. *)
Theorem dispatch_malformed_shape (raw : JsValue) :
  malformed_input raw ->
  exists e,
    dispatchWebhookEvent raw = Normal e /\
    own_property e "timestamp" = None /\
    own_property e "sessionId" = None /\
    own_property e "data" = Some raw /\
    (forall k v, own_property e k = Some v ->
                 k = "event" \/ k = "data" \/ k = "raw").
Proof.
  intros Hmal. exists (unknown_fallback raw).
  rewrite (dispatch_malformed raw Hmal). simpl.
  repeat split; try reflexivity.
  intros k v.
  destruct (k =? "event") eqn:E1; [apply String.eqb_eq in E1; auto |].
  destruct (k =? "data") eqn:E2; [apply String.eqb_eq in E2; auto |].
  destruct (k =? "raw") eqn:E3; [apply String.eqb_eq in E3; auto |].
  discriminate.
Qed.

Lemma dispatch_malformed_shape_witness :
  (own_property Malformed.empty_event "timestamp" = Some Scenario.timestamp /\
   own_property Malformed.empty_event "sessionId" = Some (JString "sessionX") /\
   own_property Malformed.empty_event "data"
     = Some (JObject [ ("foo", JString "bar") ])) /\
  exists e,
    dispatchWebhookEvent Malformed.empty_event = Normal e /\
    own_property e "timestamp" = None /\
    own_property e "sessionId" = None /\
    own_property e "data" = Some Malformed.empty_event /\
    (forall k v, own_property e k = Some v ->
                 k = "event" \/ k = "data" \/ k = "raw").
Proof.
  split; [repeat split |].
  apply dispatch_malformed_shape.
  right. exists (JString ""). split; reflexivity.
Defined.



(** ** Totality and determinism *)

Lemma Get_object_total (raw : JsValue) :
  is_object raw = true -> forall k, exists v, Get raw k = Normal v.
Proof.
  intros Hobj k.
  destruct (is_object_cases raw Hobj) as [[elems ->] | [props ->]];
    simpl; eauto.
Qed.

Lemma switch_uniform_cases {A : Type} (ev : JsValue) (body default : A)
  (labels : list string) :
  switch ev (map (fun l => (l, body)) labels) default = body \/
  switch ev (map (fun l => (l, body)) labels) default = default.
Proof.
  induction labels as [| l rest IH]; simpl.
  - right. reflexivity.
  - destruct (strict_equals_prim ev (PString l)); [left; reflexivity | exact IH].
Qed.

Lemma dispatch_returns (raw : JsValue) :
  exists e, dispatchWebhookEvent raw = Normal e.
Proof.
  destruct (is_object raw) eqn:Hobj.
  - destruct (Get_object_total raw Hobj "event") as [ev Hget].
    destruct (ToBoolean ev) eqn:Ht.
    + rewrite (dispatch_truthy_event raw ev Hget Ht), dispatch_cases_uniform.
      destruct (Get_object_total raw Hobj "timestamp") as [ts ->].
      destruct (Get_object_total raw Hobj "data") as [data ->].
      destruct (Get_object_total raw Hobj "sessionId") as [sid ->].
      match goal with
      | |- exists e, switch ?v (map _ ?ls) ?d = _ =>
          destruct (switch_uniform_cases v (Normal raw) d ls) as [-> | ->]
      end; simpl; eauto.
    + rewrite (dispatch_falsy_event raw ev Hget Ht). eauto.
  - rewrite (dispatch_not_object raw Hobj). eauto.
Qed.

(** C4: [dispatchWebhookEvent] completes normally with an event value on
    every input; no input makes it throw. *)
Theorem dispatch_total (raw : JsValue) :
  (exists e, dispatchWebhookEvent raw = Normal e) /\
  (forall err, dispatchWebhookEvent raw <> Throw err).
Proof.
  destruct (dispatch_returns raw) as [e He]. split.
  - exists e. exact He.
  - intros err. rewrite He. discriminate.
Qed.

Lemma spec_float_same_refl (x : spec_float) : spec_float_same x x = true.
Proof.
  destruct x; simpl; rewrite ?eqb_reflx, ?Pos.eqb_refl, ?Z.eqb_refl;
    reflexivity.
Qed.

Lemma prim_same_value_refl (p : Primitive) : prim_same_value p p = true.
Proof.
  destruct p; simpl;
    rewrite ?eqb_reflx, ?spec_float_same_refl, ?String.eqb_refl; reflexivity.
Qed.

Lemma own_lookup_app (k : string) (p q : list (string * JsValue)) :
  own_lookup k p = None -> own_lookup k (p ++ q) = own_lookup k q.
Proof.
  induction p as [| [k' v] p IH]; simpl; intros H.
  - reflexivity.
  - destruct (k =? k'); [discriminate | exact (IH H)].
Qed.

Lemma own_lookup_snoc_none (k k' : string) (v : JsValue)
  (p : list (string * JsValue)) :
  own_lookup k p = None -> (k =? k') = false ->
  own_lookup k (p ++ [(k', v)]) = None.
Proof.
  intros Hp Hk. rewrite (own_lookup_app k p _ Hp). simpl.
  rewrite Hk. reflexivity.
Qed.

Lemma has_own_property_in (kv : string * JsValue)
  (props : list (string * JsValue)) :
  In kv props -> has_own_property (fst kv) props = true.
Proof.
  unfold has_own_property.
  induction props as [| [k v] rest IH]; simpl; intros Hin.
  - contradiction.
  - destruct (fst kv =? k) eqn:E; [reflexivity |].
    destruct Hin as [<- | Hin].
    + simpl in E. rewrite String.eqb_refl in E. discriminate.
    + exact (IH Hin).
Qed.

Section DeepEqualReflexive.
Variable equal : JsValue -> JsValue -> bool.

Lemma elements_equal_refl (xs : list JsValue) :
  Forall (fun x => equal x x = true) xs -> elements_equal equal xs xs = true.
Proof.
  induction 1 as [| x xs Hx _ IH]; simpl.
  - reflexivity.
  - rewrite Hx, IH. reflexivity.
Qed.

(** The properties of an object match the object itself, from any point
    of its property list on, as long as [seen] holds at least the keys
    met before that point. *)
Lemma properties_equal_suffix (l prefix : list (string * JsValue))
  (seen : list string) :
  Forall (fun kv => equal (snd kv) (snd kv) = true) l ->
  (forall k, mem_string k seen = false -> own_lookup k prefix = None) ->
  properties_equal equal (prefix ++ l) seen l = true.
Proof.
  revert prefix seen.
  induction l as [| [k v] l IH]; intros prefix seen Hall Hseen; simpl.
  - reflexivity.
  - inversion Hall as [| ? ? Hv Hrest]; subst. simpl in Hv.
    apply andb_true_intro. split.
    + destruct (mem_string k seen) eqn:Hk; [reflexivity |].
      rewrite (own_lookup_app k prefix _ (Hseen k Hk)). simpl.
      rewrite String.eqb_refl. exact Hv.
    + replace (prefix ++ (k, v) :: l)%list
        with ((prefix ++ [(k, v)]) ++ l)%list
        by (rewrite <- app_assoc; reflexivity).
      apply IH; [exact Hrest |].
      intros k0 Hk0. simpl in Hk0. apply orb_false_iff in Hk0 as [Hne Hk0].
      apply own_lookup_snoc_none; [apply Hseen, Hk0 | exact Hne].
Qed.
End DeepEqualReflexive.

Lemma deep_equal_refl (v : JsValue) : deep_equal v v = true.
Proof.
  induction v as [p | elems IH | props IH] using JsValue_ind; simpl.
  - apply prim_same_value_refl.
  - apply elements_equal_refl, IH.
  - apply andb_true_intro. split.
    + apply (properties_equal_suffix deep_equal props [] []); [exact IH |].
      reflexivity.
    + apply forallb_forall. intros kv Hin.
      apply has_own_property_in, Hin.
Qed.

(** ** Signature check *)

Lemma prim_truthy_string (s : string) :
  s <> "" -> prim_truthy (PString s) = true.
Proof.
  intros Hne. simpl. apply String.eqb_neq in Hne. rewrite Hne. reflexivity.
Qed.

(** C5: [verifyWasenderWebhookSignature] is false as soon as one argument
    is [undefined], [null] or the empty string; on two non-empty strings it
    is true exactly when they are equal; and it takes the five listed
    values. *)
Theorem verify_signature_spec :
  (forall requestSignature configuredSecret : Primitive,
      absent_or_empty requestSignature \/ absent_or_empty configuredSecret ->
      verifyWasenderWebhookSignature requestSignature configuredSecret
        = false) /\
  (forall s t : string,
      s <> "" -> t <> "" ->
      (verifyWasenderWebhookSignature (PString s) (PString t) = true
       <-> s = t)) /\
  verifyWasenderWebhookSignature PUndefined (PString "secret") = false /\
  verifyWasenderWebhookSignature (PString "") (PString "secret") = false /\
  verifyWasenderWebhookSignature (PString "s") (PString "") = false /\
  verifyWasenderWebhookSignature (PString "abc") (PString "abc") = true /\
  verifyWasenderWebhookSignature (PString "abc") (PString "abcd") = false.
Proof.
  split; [| split; [| repeat split]].
  - intros a b [Ha | Hb]; unfold verifyWasenderWebhookSignature.
    + destruct Ha as [-> | [-> | ->]]; reflexivity.
    + destruct Hb as [-> | [-> | ->]]; simpl;
        rewrite orb_true_r; reflexivity.
  - intros s t Hs Ht. unfold verifyWasenderWebhookSignature.
    rewrite (prim_truthy_string s Hs), (prim_truthy_string t Ht). simpl.
    apply String.eqb_eq.
Qed.

Lemma verify_signature_spec_witness :
  verifyWasenderWebhookSignature PNull (PString "secret") = false /\
  (verifyWasenderWebhookSignature (PString "abc") (PString "abc") = true
   <-> "abc" = "abc").
Proof.
  split.
  - apply (proj1 verify_signature_spec). left. right. left. reflexivity.
  - apply (proj1 (proj2 verify_signature_spec)); discriminate.
Defined.

(** ** Scenarios *)

(** C7: the [call.received] input of the specification is dispatched to an
    event whose [event] is ["call.received"] and whose [data.call.id] is
    ["call123"]; and an input whose [event] is ["messages-group.received"]
    and which carries [data.key.participant = "12345@s.whatsapp.net"] and
    [data.message.conversation = "group hello"] is dispatched to an event
    with that [event] and the same two values at the same places. *)
Theorem dispatch_scenarios :
  (exists e,
      dispatchWebhookEvent Scenario.call_received_minimal = Normal e /\
      Get e "event" = Normal (JString "call.received") /\
      GetPath e ["data"; "call"; "id"] = Normal (JString "call123")) /\
  (forall raw : JsValue,
      Get raw "event" = Normal (JString "messages-group.received") ->
      GetPath raw ["data"; "key"; "participant"]
        = Normal (JString "12345@s.whatsapp.net") ->
      GetPath raw ["data"; "message"; "conversation"]
        = Normal (JString "group hello") ->
      exists e,
        dispatchWebhookEvent raw = Normal e /\
        Get e "event" = Normal (JString "messages-group.received") /\
        GetPath e ["data"; "key"; "participant"]
          = Normal (JString "12345@s.whatsapp.net") /\
        GetPath e ["data"; "message"; "conversation"]
          = Normal (JString "group hello")).
Proof.
  split.
  - eexists. repeat split; reflexivity.
  - intros raw Hev Hpart Hconv. exists raw. repeat split; auto.
    apply (dispatch_known_event raw "messages-group.received");
      [unfold WasenderWebhookEventType.values; simpl; tauto | exact Hev].
Qed.

Lemma dispatch_scenarios_witness :
  exists e,
    dispatchWebhookEvent Scenario.group_received = Normal e /\
    Get e "event" = Normal (JString "messages-group.received") /\
    GetPath e ["data"; "key"; "participant"]
      = Normal (JString "12345@s.whatsapp.net") /\
    GetPath e ["data"; "message"; "conversation"]
      = Normal (JString "group hello").
Proof.
  apply (proj2 dispatch_scenarios); reflexivity.
Defined.

(** * Further properties of the module *)

(** ** Values never contain themselves *)

Lemma list_sum_in (n : nat) (l : list nat) : In n l -> n <= list_sum l.
Proof.
  induction l as [| m l IH]; simpl; intros Hin.
  - contradiction.
  - destruct Hin as [-> | Hin]; [lia | specialize (IH Hin); lia].
Qed.

Lemma property_smaller (k : string) (v : JsValue)
  (props : list (string * JsValue)) :
  In (k, v) props -> value_size v < value_size (JObject props).
Proof.
  intros Hin. simpl.
  assert (H : In (value_size v) (map (fun kv => value_size (snd kv)) props)).
  { apply in_map_iff. exists (k, v). split; [reflexivity | exact Hin]. }
  apply list_sum_in in H. lia.
Qed.

Lemma property_not_self (k : string) (v : JsValue)
  (props : list (string * JsValue)) :
  In (k, v) props -> JObject props <> v.
Proof.
  intros Hin Heq. apply property_smaller in Hin.
  rewrite Heq in Hin. lia.
Qed.

Lemma unknown_fallback_not_input (raw : JsValue) : unknown_fallback raw <> raw.
Proof.
  apply (property_not_self "raw"). simpl. auto.
Qed.

Lemma fallback_event_not_input (ev timestamp data sessionId raw : JsValue) :
  fallback_event ev timestamp data sessionId raw <> raw.
Proof.
  apply (property_not_self "raw"). simpl. auto 10.
Qed.

(** ** The three branches, exhaustively *)

Lemma known_name_truthy (name : string) :
  In name WasenderWebhookEventType.values -> ToBoolean (JString name) = true.
Proof.
  intros Hin. simpl. apply values_nonempty in Hin.
  apply String.eqb_neq in Hin. rewrite Hin. reflexivity.
Qed.

Lemma unknown_not_a_value :
  ~ In "unknown" WasenderWebhookEventType.values.
Proof.
  unfold WasenderWebhookEventType.values. simpl. intuition discriminate.
Qed.

Lemma known_name_dec (ev : JsValue) :
  (exists name, In name WasenderWebhookEventType.values /\ ev = JString name)
  \/ (forall name, In name WasenderWebhookEventType.values ->
                   ev <> JString name).
Proof.
  destruct ev as [[ | | b | n | s] | elems | props];
    try (right; intros name _; discriminate).
  destruct (in_dec string_dec s WasenderWebhookEventType.values) as [Hin | Hnot].
  - left. exists s. auto.
  - right. intros name Hin Heq. injection Heq as ->. contradiction.
Qed.

Lemma known_not_malformed (raw : JsValue) :
  known_event raw -> ~ malformed_input raw.
Proof.
  intros (name & Hin & Hget) [Hobj | (ev & Hget' & Hfalsy)].
  - rewrite (truthy_event_is_object raw _ Hget (known_name_truthy name Hin))
      in Hobj. discriminate.
  - rewrite Hget in Hget'. injection Hget' as <-.
    rewrite (known_name_truthy name Hin) in Hfalsy. discriminate.
Qed.

(** Every input takes exactly one of the three exits of
    [dispatchWebhookEvent]: the guard, a [case], or [default]. *)
Lemma dispatch_classify (raw : JsValue) :
  (malformed_input raw /\
   dispatchWebhookEvent raw = Normal (unknown_fallback raw))
  \/ (known_event raw /\ dispatchWebhookEvent raw = Normal raw)
  \/ (exists ev timestamp data sessionId,
         Get raw "event" = Normal ev /\
         ToBoolean ev = true /\
         (forall name, In name WasenderWebhookEventType.values ->
                       ev <> JString name) /\
         Get raw "timestamp" = Normal timestamp /\
         Get raw "data" = Normal data /\
         Get raw "sessionId" = Normal sessionId /\
         dispatchWebhookEvent raw =
           Normal (fallback_event ev timestamp data sessionId raw)).
Proof.
  destruct (is_object raw) eqn:Hobj.
  - destruct (Get_object_total raw Hobj "event") as [ev Hget].
    destruct (ToBoolean ev) eqn:Ht.
    + destruct (known_name_dec ev) as [(name & Hin & ->) | Hnone].
      * right. left. split; [exists name; auto |].
        apply (dispatch_known_event raw name Hin Hget).
      * right. right.
        destruct (dispatch_no_match raw ev Hget Ht Hnone)
          as (ts & data & sid & Hts & Hdata & Hsid & Hd).
        exists ev, ts, data, sid. auto 10.
    + left. assert (Hmal : malformed_input raw) by (right; eauto).
      split; [exact Hmal | apply dispatch_malformed, Hmal].
  - left. assert (Hmal : malformed_input raw) by (left; exact Hobj).
    split; [exact Hmal | apply dispatch_malformed, Hmal].
Qed.

Lemma no_match_not_known (raw ev : JsValue) :
  Get raw "event" = Normal ev ->
  (forall name, In name WasenderWebhookEventType.values -> ev <> JString name) ->
  ~ known_event raw.
Proof.
  intros Hget Hnone (name & Hin & Hget').
  rewrite Hget in Hget'. injection Hget' as ->.
  exact (Hnone name Hin eq_refl).
Qed.

Lemma Get_own_property (raw v : JsValue) (k : string) :
  Get raw k = Normal v -> ToBoolean v = true -> own_property raw k = Some v.
Proof.
  destruct raw as [[ | | b | n | s] | elems | props]; simpl; intros H Ht;
    try discriminate; try (injection H as <-; discriminate).
  destruct (own_lookup k props) as [x |].
  - injection H as ->. reflexivity.
  - injection H as <-. discriminate.
Qed.

(** The [event] of every result is an own property holding a truthy
    value. *)
Lemma dispatch_result_event (raw e : JsValue) :
  dispatchWebhookEvent raw = Normal e ->
  exists ev, own_property e "event" = Some ev /\ ToBoolean ev = true.
Proof.
  intros Hd.
  destruct (dispatch_classify raw)
    as [[_ Hr] | [[(name & Hin & Hget) Hr]
       | (ev & ts & data & sid & _ & Ht & _ & _ & _ & _ & Hr)]];
    rewrite Hr in Hd; injection Hd as <-.
  - exists (JString "unknown"). split; reflexivity.
  - exists (JString name). pose proof (known_name_truthy name Hin) as Ht.
    split; [apply Get_own_property; assumption | exact Ht].
  - exists ev. split; [reflexivity | exact Ht].
Qed.

Lemma own_property_Get (e v : JsValue) (k : string) :
  own_property e k = Some v -> Get e k = Normal v.
Proof.
  destruct e as [p | elems | props]; simpl; try discriminate.
  intros ->. reflexivity.
Qed.

(** ** What a result tells about its input *)

(** X3: whatever the input, the result is an object whose own [event]
    property holds a truthy value, so a consumer can always branch on
    it. *)
Theorem dispatch_result_is_event (raw e : JsValue) :
  dispatchWebhookEvent raw = Normal e ->
  exists props ev,
    e = JObject props /\
    own_lookup "event" props = Some ev /\
    ToBoolean ev = true.
Proof.
  intros Hd. destruct (dispatch_result_event raw e Hd) as (ev & Hown & Ht).
  destruct e as [p | elems | props]; simpl in Hown; try discriminate.
  exists props, ev. auto.
Qed.

Lemma dispatch_result_is_event_witness :
  exists props ev,
    unknown_fallback (JArray []) = JObject props /\
    own_lookup "event" props = Some ev /\
    ToBoolean ev = true.
Proof.
  apply (dispatch_result_is_event (JArray [])). reflexivity.
Defined.

(** X4: the result is the input itself exactly when the input's [event] is
    one of the values of [WasenderWebhookEventType]. *)
Theorem dispatch_returns_input_iff_known (raw : JsValue) :
  dispatchWebhookEvent raw = Normal raw <-> known_event raw.
Proof.
  split.
  - intros Hd.
    destruct (dispatch_classify raw)
      as [[_ Hr] | [[Hk _] | (ev & ts & data & sid & _ & _ & _ & _ & _ & _ & Hr)]].
    + rewrite Hr in Hd. injection Hd as Heq.
      destruct (unknown_fallback_not_input raw Heq).
    + exact Hk.
    + rewrite Hr in Hd. injection Hd as Heq.
      destruct (fallback_event_not_input _ _ _ _ raw Heq).
  - intros (name & Hin & Hget). apply (dispatch_known_event raw name Hin Hget).
Qed.

Lemma dispatch_returns_input_iff_known_witness :
  dispatchWebhookEvent Scenario.call_received = Normal Scenario.call_received.
Proof.
  apply (proj2 (dispatch_returns_input_iff_known Scenario.call_received)).
  exists "call.received". split; [| reflexivity].
  unfold WasenderWebhookEventType.values. simpl. tauto.
Defined.

(** X5: when the input's [event] is not one of the known values, the
    result is a new object, different from the input, that holds the whole
    input under [raw]. *)
Theorem dispatch_fallback_keeps_input (raw : JsValue) :
  ~ known_event raw ->
  exists e,
    dispatchWebhookEvent raw = Normal e /\
    e <> raw /\
    own_property e "raw" = Some raw.
Proof.
  intros Hnot.
  destruct (dispatch_classify raw)
    as [[_ Hr] | [[Hk _] | (ev & ts & data & sid & _ & _ & _ & _ & _ & _ & Hr)]].
  - exists (unknown_fallback raw).
    split; [exact Hr |]. split; [apply unknown_fallback_not_input | reflexivity].
  - contradiction.
  - exists (fallback_event ev ts data sid raw).
    split; [exact Hr |]. split; [apply fallback_event_not_input | reflexivity].
Qed.

Lemma dispatch_fallback_keeps_input_witness :
  exists e,
    dispatchWebhookEvent Scenario.unknown_custom = Normal e /\
    e <> Scenario.unknown_custom /\
    own_property e "raw" = Some Scenario.unknown_custom.
Proof.
  apply dispatch_fallback_keeps_input.
  intros (name & Hin & Hget). simpl in Hget. injection Hget as <-.
  revert Hin. unfold WasenderWebhookEventType.values. simpl.
  intuition discriminate.
Defined.

(** X6: the result's [event] is the sentinel ["unknown"] exactly when the
    input was stopped by the guard or its own [event] is the string
    ["unknown"]: the sentinel alone does not tell the two apart. *)
Theorem dispatch_unknown_iff (raw e : JsValue) :
  dispatchWebhookEvent raw = Normal e ->
  (Get e "event" = Normal (JString "unknown")
   <-> malformed_input raw \/ Get raw "event" = Normal (JString "unknown")).
Proof.
  intros Hd.
  destruct (dispatch_classify raw)
    as [[Hmal Hr] | [[Hk Hr]
       | (ev & ts & data & sid & Hget & Ht & Hnone & _ & _ & _ & Hr)]];
    rewrite Hr in Hd; injection Hd as <-.
  - split; [auto | reflexivity].
  - split; [auto |]. intros [Hmal | Hget]; [| exact Hget].
    destruct (known_not_malformed raw Hk Hmal).
  - simpl. split.
    + intros Hev. injection Hev as ->. right. exact Hget.
    + intros [[Hobj | (ev' & Hget' & Hfalsy)] | Hget'].
      * rewrite (truthy_event_is_object raw ev Hget Ht) in Hobj. discriminate.
      * rewrite Hget in Hget'. injection Hget' as <-.
        rewrite Ht in Hfalsy. discriminate.
      * rewrite Hget in Hget'. exact Hget'.
Qed.

Lemma dispatch_unknown_iff_witness :
  Get (unknown_fallback null) "event" = Normal (JString "unknown")
  <-> malformed_input null \/ Get null "event" = Normal (JString "unknown").
Proof.
  apply (dispatch_unknown_iff null). reflexivity.
Defined.

(** X8: a result whose [event] is one of the known values is the input
    itself, whose [event] was already that value: no input is promoted to
    a known kind. *)
Theorem dispatch_known_kind_sound (raw e : JsValue) (name : string) :
  dispatchWebhookEvent raw = Normal e ->
  In name WasenderWebhookEventType.values ->
  Get e "event" = Normal (JString name) ->
  e = raw /\ Get raw "event" = Normal (JString name).
Proof.
  intros Hd Hin Hev.
  destruct (dispatch_classify raw)
    as [[Hmal Hr] | [[Hk Hr]
       | (ev & ts & data & sid & Hget & Ht & Hnone & _ & _ & _ & Hr)]];
    rewrite Hr in Hd; injection Hd as <-.
  - simpl in Hev. injection Hev as <-.
    destruct (unknown_not_a_value Hin).
  - auto.
  - simpl in Hev. injection Hev as ->.
    destruct (Hnone name Hin eq_refl).
Qed.

Lemma dispatch_known_kind_sound_witness :
  Scenario.group_received = Scenario.group_received /\
  Get Scenario.group_received "event"
    = Normal (JString "messages-group.received").
Proof.
  apply (dispatch_known_kind_sound Scenario.group_received).
  - reflexivity.
  - unfold WasenderWebhookEventType.values. simpl. tauto.
  - reflexivity.
Defined.

(** X10: the guard's fallback event is returned exactly for the inputs
    that have no own [event] property with a truthy value: every
    primitive, every array, and every object whose [event] is missing or
    falsy. *)
Theorem dispatch_unknown_fallback_iff (raw : JsValue) :
  dispatchWebhookEvent raw = Normal (unknown_fallback raw)
  <-> ~ (exists ev, own_property raw "event" = Some ev /\ ToBoolean ev = true).
Proof.
  split.
  - intros Hd (ev & Hown & Ht).
    pose proof (own_property_Get raw ev "event" Hown) as Hget.
    destruct (known_name_dec ev) as [(name & Hin & ->) | Hnone].
    + rewrite (dispatch_known_event raw name Hin Hget) in Hd.
      injection Hd as Heq. symmetry in Heq.
      exact (unknown_fallback_not_input raw Heq).
    + destruct (dispatch_no_match raw ev Hget Ht Hnone)
        as (ts & data & sid & _ & _ & _ & Hr).
      rewrite Hr in Hd. discriminate Hd.
  - intros Hno. apply dispatch_malformed.
    destruct (is_object raw) eqn:Hobj; [| left; exact Hobj].
    destruct (Get_object_total raw Hobj "event") as [ev Hget].
    destruct (ToBoolean ev) eqn:Ht; [| right; eauto].
    destruct Hno. exists ev. split; [| exact Ht].
    apply Get_own_property; assumption.
Qed.

Lemma dispatch_unknown_fallback_iff_witness :
  dispatchWebhookEvent (JArray [Scenario.call_received])
  = Normal (unknown_fallback (JArray [Scenario.call_received])).
Proof.
  apply (proj2 (dispatch_unknown_fallback_iff (JArray [Scenario.call_received]))).
  intros (ev & Hown & _). discriminate Hown.
Defined.

(** ** The [default] branch *)

Lemma truthy_event_is_plain_object (raw ev : JsValue) :
  Get raw "event" = Normal ev -> ToBoolean ev = true ->
  exists props, raw = JObject props.
Proof.
  intros Hget Ht.
  destruct (is_object_cases raw (truthy_event_is_object raw ev Hget Ht))
    as [[elems ->] | [props ->]]; [| eauto].
  simpl in Hget. injection Hget as <-. discriminate.
Qed.

Lemma Get_absent (props : list (string * JsValue)) (k : string) (v : JsValue) :
  Get (JObject props) k = Normal v -> own_lookup k props = None ->
  v = undefined.
Proof.
  simpl. intros H Hnone. rewrite Hnone in H. injection H as <-. reflexivity.
Qed.

(** X9: the fallback event of the [default] branch has the five own
    properties [event], [timestamp], [data], [sessionId] and [raw] and no
    other; a [timestamp], [data] or [sessionId] that the input lacks is
    present on the result with the value [undefined]. *)
Theorem dispatch_default_shape (raw ev : JsValue) :
  Get raw "event" = Normal ev ->
  ToBoolean ev = true ->
  (forall name, In name WasenderWebhookEventType.values -> ev <> JString name) ->
  exists e,
    dispatchWebhookEvent raw = Normal e /\
    (forall k, own_property e k <> None <-> In k fallback_keys) /\
    (own_property raw "timestamp" = None ->
     own_property e "timestamp" = Some undefined) /\
    (own_property raw "data" = None ->
     own_property e "data" = Some undefined) /\
    (own_property raw "sessionId" = None ->
     own_property e "sessionId" = Some undefined).
Proof.
  intros Hget Ht Hnone.
  destruct (dispatch_no_match raw ev Hget Ht Hnone)
    as (ts & data & sid & Hts & Hdata & Hsid & Hd).
  destruct (truthy_event_is_plain_object raw ev Hget Ht) as [props ->].
  exists (fallback_event ev ts data sid (JObject props)).
  split; [exact Hd |]. split; [| repeat split].
  - intros k. unfold fallback_keys. simpl.
    destruct (k =? "event") eqn:E1;
      [apply String.eqb_eq in E1; subst; split; [auto | discriminate] |].
    destruct (k =? "timestamp") eqn:E2;
      [apply String.eqb_eq in E2; subst; split; [auto | discriminate] |].
    destruct (k =? "data") eqn:E3;
      [apply String.eqb_eq in E3; subst; split; [auto | discriminate] |].
    destruct (k =? "sessionId") eqn:E4;
      [apply String.eqb_eq in E4; subst; split; [auto 10 | discriminate] |].
    destruct (k =? "raw") eqn:E5;
      [apply String.eqb_eq in E5; subst; split; [auto 10 | discriminate] |].
    apply String.eqb_neq in E1, E2, E3, E4, E5.
    split; [intros H; destruct (H eq_refl) |].
    intros [H | [H | [H | [H | [H | []]]]]]; symmetry in H; contradiction.
  - simpl. intros Habs. rewrite (Get_absent props _ ts Hts Habs). reflexivity.
  - simpl. intros Habs. rewrite (Get_absent props _ data Hdata Habs).
    reflexivity.
  - simpl. intros Habs. rewrite (Get_absent props _ sid Hsid Habs).
    reflexivity.
Qed.

Lemma dispatch_default_shape_witness :
  exists e,
    dispatchWebhookEvent Malformed.numeric_event = Normal e /\
    (forall k, own_property e k <> None <-> In k fallback_keys) /\
    (own_property Malformed.numeric_event "timestamp" = None ->
     own_property e "timestamp" = Some undefined) /\
    (own_property Malformed.numeric_event "data" = None ->
     own_property e "data" = Some undefined) /\
    (own_property Malformed.numeric_event "sessionId" = None ->
     own_property e "sessionId" = Some undefined).
Proof.
  apply (dispatch_default_shape _ (JNumber (number_of_pos 42))).
  - reflexivity.
  - reflexivity.
  - discriminate.
Defined.

(** ** Dispatching a result again *)

Lemma dispatch_default_fields (x ev : JsValue) :
  Get x "event" = Normal ev ->
  ToBoolean ev = true ->
  (forall name, In name WasenderWebhookEventType.values -> ev <> JString name) ->
  exists e,
    dispatchWebhookEvent x = Normal e /\
    Get e "event" = Get x "event" /\
    Get e "timestamp" = Get x "timestamp" /\
    Get e "data" = Get x "data" /\
    Get e "sessionId" = Get x "sessionId" /\
    own_property e "raw" = Some x.
Proof.
  intros Hget Ht Hnone.
  destruct (dispatch_no_match x ev Hget Ht Hnone)
    as (ts & data & sid & Hts & Hdata & Hsid & Hd).
  exists (fallback_event ev ts data sid x).
  rewrite Hd, Hget, Hts, Hdata, Hsid. simpl. auto 10.
Qed.

(** X7: a result can be dispatched again, and the second result reads the
    same [event], [timestamp], [data] and [sessionId] as the first.  The
    result of a known event is returned as it is; a fallback event is
    wrapped in a new fallback event that holds it under [raw]. *)
Theorem dispatch_twice (raw e : JsValue) :
  dispatchWebhookEvent raw = Normal e ->
  exists e2,
    dispatchWebhookEvent e = Normal e2 /\
    Get e2 "event" = Get e "event" /\
    Get e2 "timestamp" = Get e "timestamp" /\
    Get e2 "data" = Get e "data" /\
    Get e2 "sessionId" = Get e "sessionId" /\
    ((known_event raw /\ e2 = e)
     \/ (~ known_event raw /\ own_property e2 "raw" = Some e)).
Proof.
  intros Hd.
  destruct (dispatch_classify raw)
    as [[Hmal Hr] | [[Hk Hr]
       | (ev & ts & data & sid & Hget & Ht & Hnone & _ & _ & _ & Hr)]];
    rewrite Hr in Hd; injection Hd as <-.
  - destruct (dispatch_default_fields (unknown_fallback raw)
                (JString "unknown") eq_refl eq_refl)
      as (e2 & Hd2 & H1 & H2 & H3 & H4 & H5).
    { intros name Hin Heq. injection Heq as <-.
      exact (unknown_not_a_value Hin). }
    exists e2. repeat (split; [assumption |]). right. split; [| exact H5].
    intros Hk. exact (known_not_malformed raw Hk Hmal).
  - exists raw. repeat (split; [auto; fail |]). left. auto.
  - destruct (dispatch_default_fields (fallback_event ev ts data sid raw)
                ev eq_refl Ht Hnone)
      as (e2 & Hd2 & H1 & H2 & H3 & H4 & H5).
    exists e2. repeat (split; [assumption |]). right. split; [| exact H5].
    exact (no_match_not_known raw ev Hget Hnone).
Qed.

Lemma dispatch_twice_witness :
  exists e2,
    dispatchWebhookEvent (unknown_fallback null) = Normal e2 /\
    Get e2 "event" = Get (unknown_fallback null) "event" /\
    Get e2 "timestamp" = Get (unknown_fallback null) "timestamp" /\
    Get e2 "data" = Get (unknown_fallback null) "data" /\
    Get e2 "sessionId" = Get (unknown_fallback null) "sessionId" /\
    ((known_event null /\ e2 = unknown_fallback null)
     \/ (~ known_event null /\
         own_property e2 "raw" = Some (unknown_fallback null))).
Proof.
  apply (dispatch_twice null). reflexivity.
Defined.

(** ** The signature check, beyond strings *)

Lemma SFeqb_sym (x y : spec_float) : SFeqb x y = SFeqb y x.
Proof.
  unfold SFeqb, SFcompare.
  destruct x as [s | s | | s m e], y as [t | t | | t n f];
    try destruct s; try destruct t; try reflexivity;
    change (Pos.compare_cont Eq m n) with (m ?= n)%positive;
    change (Pos.compare_cont Eq n m) with (n ?= m)%positive;
    destruct (Z.compare_spec e f) as [-> | He | He];
    try rewrite Z.compare_refl;
    try (rewrite (proj2 (Z.compare_gt_iff f e)) by lia);
    try (rewrite (proj2 (Z.compare_lt_iff f e)) by lia);
    try reflexivity;
    destruct (Pos.compare_spec m n) as [-> | Hm | Hm];
    try rewrite Pos.compare_refl;
    try (rewrite (proj2 (Pos.compare_gt_iff n m)) by lia);
    try (rewrite (proj2 (Pos.compare_lt_iff n m)) by lia);
    reflexivity.
Qed.

Lemma prim_strict_equals_sym (a b : Primitive) :
  prim_strict_equals a b = prim_strict_equals b a.
Proof.
  destruct a as [ | | x | x | x], b as [ | | y | y | y]; simpl;
    try reflexivity.
  - destruct x, y; reflexivity.
  - apply SFeqb_sym.
  - apply String.eqb_sym.
Qed.

(** X1: against a string secret the check accepts a signature only if it
    is that same string, and the string is not empty: a signature of
    another type is never accepted, whatever it would convert to. *)
Theorem verify_accepts_only_the_secret (requestSignature : Primitive)
  (configuredSecret : string) :
  verifyWasenderWebhookSignature requestSignature (PString configuredSecret)
    = true
  <-> requestSignature = PString configuredSecret /\ configuredSecret <> "".
Proof.
  unfold verifyWasenderWebhookSignature. split.
  - destruct (negb (prim_truthy requestSignature)
              || negb (prim_truthy (PString configuredSecret))) eqn:G;
      [discriminate |].
    apply orb_false_iff in G as [_ Gs]. simpl in Gs.
    apply negb_false_iff, negb_true_iff, String.eqb_neq in Gs.
    destruct requestSignature as [ | | b | n | s]; simpl; try discriminate.
    intros E. apply String.eqb_eq in E. subst. auto.
  - intros [-> Hne]. rewrite (prim_truthy_string _ Hne). simpl.
    apply String.eqb_refl.
Qed.

Lemma verify_accepts_only_the_secret_witness :
  verifyWasenderWebhookSignature (PString "abc") (PString "abc") = true.
Proof.
  apply (proj2 (verify_accepts_only_the_secret (PString "abc") "abc")).
  split; [reflexivity | discriminate].
Defined.

(** X2: the check does not depend on the order of its two arguments. *)
Theorem verify_symmetric (requestSignature configuredSecret : Primitive) :
  verifyWasenderWebhookSignature requestSignature configuredSecret
  = verifyWasenderWebhookSignature configuredSecret requestSignature.
Proof.
  unfold verifyWasenderWebhookSignature.
  rewrite (orb_comm (negb (prim_truthy requestSignature))).
  rewrite (prim_strict_equals_sym requestSignature configuredSecret).
  reflexivity.
Qed.

(** * Two calls over one store *)

(** ** Trees of stored values *)

Lemma traverse_weaken {A B : Type} (f g : A -> option B) (l : list A)
  (ys : list B) :
  (forall x y, In x l -> f x = Some y -> g x = Some y) ->
  ByReference.traverse f l = Some ys -> ByReference.traverse g l = Some ys.
Proof.
  revert ys. induction l as [| x l IH]; simpl; intros ys Hfg H.
  - exact H.
  - destruct (f x) as [y |] eqn:Hx; [| discriminate].
    destruct (ByReference.traverse f l) as [ys' |] eqn:Hl; [| discriminate].
    rewrite (Hfg x y (or_introl eq_refl) Hx).
    rewrite (IH ys' (fun x0 y0 Hin => Hfg x0 y0 (or_intror Hin)) eq_refl).
    exact H.
Qed.

Lemma tree_of_prim (n : nat) (h : ByReference.Store) (p : Primitive) :
  ByReference.tree_of n h (ByReference.VPrim p) = Some (JPrim p).
Proof. destruct n; reflexivity. Qed.

(** The tree of a value is the same at a larger depth and in a store
    that has grown. *)
Lemma tree_of_grows (n : nat) :
  forall (m : nat) (h h' : ByReference.Store) (v : ByReference.Value)
         (t : JsValue),
    n <= m ->
    ByReference.tree_of n h v = Some t ->
    ByReference.tree_of m (h ++ h')%list v = Some t.
Proof.
  induction n as [| n IH]; intros m h h' [p | l] t Hle Ht.
  - rewrite tree_of_prim in *. exact Ht.
  - discriminate Ht.
  - rewrite tree_of_prim in *. exact Ht.
  - destruct m as [| m]; [lia |]. simpl in *.
    destruct (nth_error h l) as [o |] eqn:Hn; [| discriminate].
    assert (Hlt : l < length h) by (apply nth_error_Some; congruence).
    rewrite (nth_error_app1 h h' Hlt), Hn.
    destruct o as [elems | props].
    + destruct (ByReference.traverse (ByReference.tree_of n h) elems)
        as [ts |] eqn:Htr; [| discriminate].
      assert (Htr' : ByReference.traverse
                       (ByReference.tree_of m (h ++ h')%list) elems = Some ts).
      { eapply traverse_weaken; [| exact Htr].
        intros x y _ Hx. apply IH; [lia | exact Hx]. }
      rewrite Htr'. exact Ht.
    + match type of Ht with
      | option_map _ (ByReference.traverse ?f props) = _ =>
          destruct (ByReference.traverse f props) as [ps |] eqn:Htr;
          [| discriminate]
      end.
      assert (Htr' : ByReference.traverse
                       (fun kv => option_map (pair (fst kv))
                          (ByReference.tree_of m (h ++ h')%list (snd kv)))
                       props = Some ps).
      { eapply traverse_weaken; [| exact Htr].
        intros kv y _ Hkv. simpl in Hkv.
        destruct (ByReference.tree_of n h (snd kv)) as [tv |] eqn:Hv;
          [| discriminate].
        rewrite (IH m h h' (snd kv) tv ltac:(lia) Hv). exact Hkv. }
      rewrite Htr'. exact Ht.
Qed.

Lemma tree_of_same_store (n m : nat) (h : ByReference.Store)
  (v : ByReference.Value) (t : JsValue) :
  n <= m ->
  ByReference.tree_of n h v = Some t -> ByReference.tree_of m h v = Some t.
Proof.
  intros Hle Ht. rewrite <- (app_nil_r h).
  apply (tree_of_grows n m h [] v t Hle Ht).
Qed.

Lemma tree_of_ref_shape (n : nat) (h : ByReference.Store) (l : nat)
  (t : JsValue) :
  ByReference.tree_of n h (ByReference.VRef l) = Some t ->
  (exists elems, t = JArray elems) \/ (exists props, t = JObject props).
Proof.
  destruct n as [| n]; simpl; [discriminate |].
  destruct (nth_error h l) as [[elems | props] |]; [| | discriminate].
  - destruct (ByReference.traverse _ elems) as [ts |]; simpl;
      [| discriminate].
    intros H. injection H as <-. eauto.
  - destruct (ByReference.traverse _ props) as [ps |]; simpl;
      [| discriminate].
    intros H. injection H as <-. eauto.
Qed.

(** ** The operations agree with those on trees *)

Section Agreement.
Variables (n : nat) (h : ByReference.Store).
Variables (v : ByReference.Value) (t : JsValue).
Hypothesis Htree : ByReference.tree_of n h v = Some t.

Lemma ToBoolean_agrees : ByReference.ToBoolean v = ToBoolean t.
Proof.
  destruct v as [p | l].
  - rewrite tree_of_prim in Htree. injection Htree as <-. reflexivity.
  - destruct (tree_of_ref_shape n h l t Htree) as [[? ->] | [? ->]];
      reflexivity.
Qed.

Lemma typeof_agrees : ByReference.typeof v = typeof t.
Proof.
  destruct v as [p | l].
  - rewrite tree_of_prim in Htree. injection Htree as <-. reflexivity.
  - destruct (tree_of_ref_shape n h l t Htree) as [[? ->] | [? ->]];
      reflexivity.
Qed.

Lemma strict_equals_prim_agrees (p : Primitive) :
  ByReference.strict_equals_prim v p = strict_equals_prim t p.
Proof.
  destruct v as [q | l].
  - rewrite tree_of_prim in Htree. injection Htree as <-. reflexivity.
  - destruct (tree_of_ref_shape n h l t Htree) as [[? ->] | [? ->]];
      reflexivity.
Qed.

Lemma switch_agrees {A B : Type} (a d : A) (a' d' : B)
  (labels : list string) :
  exists b : bool,
    ByReference.switch v (map (fun l => (l, a)) labels) d
      = (if b then a else d) /\
    switch t (map (fun l => (l, a')) labels) d' = (if b then a' else d').
Proof.
  induction labels as [| l labels IH]; simpl.
  - exists false. auto.
  - rewrite strict_equals_prim_agrees.
    destruct (strict_equals_prim t (PString l)).
    + exists true. auto.
    + exact IH.
Qed.
End Agreement.

Lemma own_lookup_agrees (n : nat) (h : ByReference.Store) (k : string)
  (props : list (string * ByReference.Value)) :
  forall tprops,
    ByReference.traverse
      (fun kv => option_map (pair (fst kv))
                   (ByReference.tree_of n h (snd kv))) props
    = Some tprops ->
    match ByReference.own_lookup k props with
    | Some x =>
        exists tx,
          ByReference.tree_of n h x = Some tx /\
          own_lookup k tprops = Some tx
    | None => own_lookup k tprops = None
    end.
Proof.
  induction props as [| [k' x] props IH]; simpl; intros tprops H.
  - injection H as <-. reflexivity.
  - destruct (ByReference.tree_of n h x) as [tx |] eqn:Hx; simpl in H;
      [| discriminate].
    destruct (ByReference.traverse _ props) as [ps |] eqn:Hps;
      [| discriminate].
    injection H as <-. simpl.
    destruct (k =? k'); [eauto | apply IH; reflexivity].
Qed.

(** A property read yields a value whose tree is what the read yields on
    the tree, throws when that one throws, and leaves the store alone. *)
Lemma Get_agrees (n : nat) (h : ByReference.Store) (v : ByReference.Value)
  (t : JsValue) (k : string) :
  ByReference.tree_of n h v = Some t ->
  match Get t k with
  | Normal tx =>
      exists x,
        ByReference.Get v k h = Normal (x, h) /\
        ByReference.tree_of n h x = Some tx
  | Throw e => ByReference.Get v k h = Throw e
  end.
Proof.
  intros Ht. destruct v as [p | l].
  - rewrite tree_of_prim in Ht. injection Ht as <-.
    destruct p; simpl; try reflexivity;
      (eexists; split; [reflexivity | apply tree_of_prim]).
  - destruct n as [| n]; [discriminate |]. simpl in Ht.
    unfold ByReference.Get.
    destruct (nth_error h l) as [[elems | props] |]; [| | discriminate].
    + destruct (ByReference.traverse _ elems) as [ts |]; simpl in Ht;
        [| discriminate].
      injection Ht as <-. simpl.
      eexists; split; reflexivity.
    + destruct (ByReference.traverse _ props) as [ps |] eqn:Hps;
        simpl in Ht; [| discriminate].
      injection Ht as <-. simpl.
      pose proof (own_lookup_agrees n h k props ps Hps) as Hk.
      destruct (ByReference.own_lookup k props) as [x |].
      * destruct Hk as (tx & Hx & ->).
        exists x. split; [reflexivity |].
        apply (tree_of_same_store n (S n) h x tx); [lia | exact Hx].
      * rewrite Hk.
        eexists; split; reflexivity.
Qed.

Lemma Get_agrees_object (n : nat) (h : ByReference.Store)
  (raw : ByReference.Value) (t : JsValue) (k : string) :
  ByReference.tree_of n h raw = Some t ->
  is_object t = true ->
  exists x tx,
    ByReference.Get raw k h = Normal (x, h) /\
    Get t k = Normal tx /\
    ByReference.tree_of n h x = Some tx.
Proof.
  intros Ht Hobj. pose proof (Get_agrees n h raw t k Ht) as H.
  destruct (Get_object_total t Hobj k) as [tx Hget]. rewrite Hget in H.
  destruct H as (x & Hx & Htx). eauto.
Qed.

Lemma tree_of_new_object (n : nat) (h : ByReference.Store)
  (props : list (string * ByReference.Value))
  (tprops : list (string * JsValue)) :
  ByReference.traverse
    (fun kv => option_map (pair (fst kv))
       (ByReference.tree_of n (h ++ [ByReference.OPlain props])%list (snd kv)))
    props = Some tprops ->
  ByReference.tree_of (S n) (h ++ [ByReference.OPlain props])%list
    (ByReference.VRef (length h)) = Some (JObject tprops).
Proof.
  intros H. simpl.
  rewrite (nth_error_app2 h _ (le_n (length h))), Nat.sub_diag. simpl.
  rewrite H. reflexivity.
Qed.

(** ** One call *)

(** The guard of the dispatcher, one test at a time. *)
Lemma dispatch_by_reference_unfold (raw : ByReference.Value)
  (h : ByReference.Store) :
  ByReference.dispatchWebhookEvent raw h =
    if negb (ByReference.ToBoolean raw)
       || negb (ByReference.typeof raw =? "object")
    then ByReference.new_object
           [ ("event", ByReference.VPrim (PString "unknown"));
             ("data", raw); ("raw", raw) ] h
    else
      match ByReference.Get raw "event" h with
      | Throw e => Throw e
      | Normal (event, h1) =>
          if negb (ByReference.ToBoolean event)
          then ByReference.new_object
                 [ ("event", ByReference.VPrim (PString "unknown"));
                   ("data", raw); ("raw", raw) ] h1
          else
            ByReference.bind (ByReference.Get raw "event")
              (fun ev =>
                 ByReference.switch ev
                   (dispatch_cases (ByReference.ret raw))
                   (ByReference.bind (ByReference.Get raw "timestamp")
                      (fun timestamp =>
                         ByReference.bind (ByReference.Get raw "data")
                           (fun data =>
                              ByReference.bind
                                (ByReference.Get raw "sessionId")
                                (fun sessionId =>
                                   ByReference.new_object
                                     [ ("event", ev);
                                       ("timestamp", timestamp);
                                       ("data", data);
                                       ("sessionId", sessionId);
                                       ("raw", raw) ]))))) h1
      end.
Proof.
  unfold ByReference.dispatchWebhookEvent, ByReference.or_else.
  unfold ByReference.bind at 1 2 3 4. unfold ByReference.ret at 1 2 3 4.
  destruct (negb (ByReference.ToBoolean raw)); [reflexivity |].
  destruct (negb (ByReference.typeof raw =? "object")); [reflexivity |].
  simpl orb. cbv iota.
  destruct (ByReference.Get raw "event" h) as [[event h1] | e];
    [| reflexivity].
  unfold ByReference.ret.
  destruct (negb (ByReference.ToBoolean event)); reflexivity.
Qed.

(** A call on a value that denotes the tree [t] returns a value that
    denotes what the dispatcher on trees returns for [t], in a store that
    extends the given one: either the reference it was given, with the
    store as it was, or a reference to one new object. *)
Lemma dispatch_by_reference_agrees (n : nat) (h : ByReference.Store)
  (raw : ByReference.Value) (t : JsValue) :
  ByReference.tree_of n h raw = Some t ->
  exists e h' t',
    ByReference.dispatchWebhookEvent raw h = Normal (e, (h ++ h')%list) /\
    dispatchWebhookEvent t = Normal t' /\
    ByReference.tree_of (S n) (h ++ h')%list e = Some t' /\
    ((e = raw /\ h' = [] /\ t' = t)
     \/ (e = ByReference.VRef (length h) /\ length h' = 1 /\ t' <> t)).
Proof.
  intros Ht.
  assert (Hunknown :
    exists e h' t',
      ByReference.new_object
        [ ("event", ByReference.VPrim (PString "unknown"));
          ("data", raw); ("raw", raw) ] h = Normal (e, (h ++ h')%list) /\
      Normal (unknown_fallback t) = Normal t' /\
      ByReference.tree_of (S n) (h ++ h')%list e = Some t' /\
      ((e = raw /\ h' = [] /\ t' = t)
       \/ (e = ByReference.VRef (length h) /\ length h' = 1 /\ t' <> t))).
  { eexists _, _, _. split; [reflexivity |]. split; [reflexivity |]. split.
    - apply tree_of_new_object. simpl.
      rewrite tree_of_prim, (tree_of_grows n n h _ raw t (le_n n) Ht).
      reflexivity.
    - right. split; [reflexivity |]. split; [reflexivity |].
      apply unknown_fallback_not_input. }
  rewrite dispatch_by_reference_unfold.
  rewrite (ToBoolean_agrees n h raw t Ht), (typeof_agrees n h raw t Ht).
  destruct (is_object t) eqn:Hobj.
  - unfold is_object in Hobj. apply andb_true_iff in Hobj as [Hb Hty].
    rewrite Hb, Hty. simpl orb. cbv iota.
    assert (Hobj : is_object t = true)
      by (unfold is_object; rewrite Hb, Hty; reflexivity).
    destruct (Get_agrees_object n h raw t "event" Ht Hobj)
      as (ev & tev & Hev & Htev & Hevt).
    rewrite Hev. rewrite (ToBoolean_agrees n h ev tev Hevt).
    destruct (ToBoolean tev) eqn:Htruthy; simpl negb; cbv iota.
    + rewrite (dispatch_truthy_event t tev Htev Htruthy).
      unfold ByReference.bind at 1. rewrite Hev.
      rewrite !dispatch_cases_uniform.
      match goal with
      | |- exists e h' t',
             ByReference.switch _ (map _ _) ?d h = _ /\
             switch _ (map _ _) ?d' = _ /\ _ =>
          destruct (switch_agrees n h ev tev Hevt
                      (ByReference.ret raw) d (Normal t) d' dispatch_labels)
            as [[|] [-> ->]]
      end.
      * exists raw, [], t. rewrite app_nil_r.
        split; [reflexivity |]. split; [reflexivity |]. split; [| auto].
        apply (tree_of_same_store n (S n) h raw t); [lia | exact Ht].
      * destruct (Get_agrees_object n h raw t "timestamp" Ht Hobj)
          as (ts & tts & Hts & Htts & Htst).
        destruct (Get_agrees_object n h raw t "data" Ht Hobj)
          as (data & tdata & Hdata & Htdata & Hdatat).
        destruct (Get_agrees_object n h raw t "sessionId" Ht Hobj)
          as (sid & tsid & Hsid & Htsid & Hsidt).
        unfold ByReference.bind. rewrite Hts, Hdata, Hsid.
        rewrite Htts, Htdata, Htsid.
        eexists _, _, _. split; [reflexivity |]. split; [reflexivity |].
        split.
        -- apply tree_of_new_object. simpl.
           rewrite (tree_of_grows n n h _ ev tev (le_n n) Hevt),
                   (tree_of_grows n n h _ ts tts (le_n n) Htst),
                   (tree_of_grows n n h _ data tdata (le_n n) Hdatat),
                   (tree_of_grows n n h _ sid tsid (le_n n) Hsidt),
                   (tree_of_grows n n h _ raw t (le_n n) Ht).
           reflexivity.
        -- right. split; [reflexivity |]. split; [reflexivity |].
           apply fallback_event_not_input.
    + rewrite (dispatch_falsy_event t tev Htev Htruthy). exact Hunknown.
  - rewrite (dispatch_not_object t Hobj).
    unfold is_object in Hobj.
    replace (negb (ToBoolean t) || negb (typeof t =? "object"))
      with true
      by (destruct (ToBoolean t), (typeof t =? "object");
          simpl in *; congruence).
    exact Hunknown.
Qed.

Lemma dispatch_identity_known (t : JsValue) :
  dispatchWebhookEvent t = Normal t -> known_event t.
Proof.
  intros Hd.
  destruct (dispatch_classify t)
    as [[_ Hr] | [[Hk _] | (ev & ts & data & sid & _ & _ & _ & _ & _ & _ & Hr)]].
  - rewrite Hr in Hd. injection Hd as Heq.
    destruct (unknown_fallback_not_input t Heq).
  - exact Hk.
  - rewrite Hr in Hd. injection Hd as Heq.
    destruct (fallback_event_not_input _ _ _ _ t Heq).
Qed.

(** ** Two calls *)

(** C6: two calls on the same value, the second in the store the first
    left, both return, and the two results denote deeply equal trees,
    namely the event the dispatcher on trees gives for the tree of the
    input; the input still denotes the same tree afterwards.  The two
    results are the same reference exactly when the event is a known one;
    otherwise they are two distinct new objects. *)
Theorem dispatch_twice_deep_equal (n : nat) (h : ByReference.Store)
  (raw : ByReference.Value) (t : JsValue) :
  ByReference.tree_of n h raw = Some t ->
  exists e1 h1 e2 h2 t1 t2,
    ByReference.dispatchWebhookEvent raw h = Normal (e1, h1) /\
    ByReference.dispatchWebhookEvent raw h1 = Normal (e2, h2) /\
    ByReference.tree_of (S n) h2 e1 = Some t1 /\
    ByReference.tree_of (S n) h2 e2 = Some t2 /\
    deep_equal t1 t2 = true /\
    dispatchWebhookEvent t = Normal t1 /\
    ByReference.tree_of n h2 raw = Some t /\
    (e1 = e2 <-> known_event t).
Proof.
  intros Ht.
  destruct (dispatch_by_reference_agrees n h raw t Ht)
    as (e1 & h' & t1 & Hd1 & Ht1 & He1 & Hcase1).
  pose proof (tree_of_grows n n h h' raw t (le_n n) Ht) as Ht'.
  destruct (dispatch_by_reference_agrees n (h ++ h')%list raw t Ht')
    as (e2 & h'' & t2 & Hd2 & Ht2 & He2 & Hcase2).
  rewrite Ht1 in Ht2. injection Ht2 as <-.
  exists e1, (h ++ h')%list, e2, ((h ++ h') ++ h'')%list, t1, t1.
  split; [exact Hd1 |]. split; [exact Hd2 |].
  split; [apply (tree_of_grows (S n) (S n)); [lia | exact He1] |].
  split; [exact He2 |].
  split; [apply deep_equal_refl |].
  split; [exact Ht1 |].
  split; [apply (tree_of_grows n n); [lia | exact Ht'] |].
  destruct Hcase1 as [(-> & _ & ->) | (-> & Hlen & Hne)].
  - destruct Hcase2 as [(-> & _ & _) | (_ & _ & Hne)]; [| contradiction].
    split; [intros _; apply dispatch_identity_known, Ht1 | reflexivity].
  - destruct Hcase2 as [(_ & _ & Heq) | (-> & _ & _)]; [contradiction |].
    split.
    + intros Heq. injection Heq as Heq. rewrite length_app in Heq. lia.
    + intros (name & Hin & Hget).
      rewrite (dispatch_known_event t name Hin Hget) in Ht1.
      injection Ht1 as Heq. symmetry in Heq. contradiction.
Qed.

Lemma dispatch_twice_deep_equal_witness :
  exists e1 h1 e2 h2 t1 t2,
    ByReference.dispatchWebhookEvent (ByReference.VRef 1)
      ByReference.unknown_custom_store = Normal (e1, h1) /\
    ByReference.dispatchWebhookEvent (ByReference.VRef 1) h1
      = Normal (e2, h2) /\
    ByReference.tree_of 3 h2 e1 = Some t1 /\
    ByReference.tree_of 3 h2 e2 = Some t2 /\
    deep_equal t1 t2 = true /\
    dispatchWebhookEvent Scenario.unknown_custom = Normal t1 /\
    ByReference.tree_of 2 h2 (ByReference.VRef 1)
      = Some Scenario.unknown_custom /\
    (e1 = e2 <-> known_event Scenario.unknown_custom).
Proof.
  apply (dispatch_twice_deep_equal 2 ByReference.unknown_custom_store
           (ByReference.VRef 1) Scenario.unknown_custom).
  reflexivity.
Defined.
